(** * Merchant verification pipeline: service, worker and HTTP routes

    A shallow embedding of
      - [src/services/externalVerification.ts]  ([verifyMerchant]),
      - the BullMQ worker of queue ['external-verification'],
      - the Express routes [POST /merchant/submit] and
        [POST /webhook/external-verification],
    together with the properties the specification states about them.

    The TypeScript code is asynchronous and effectful: it talks to Redis,
    draws from [Math.random], logs, and calls a notification service.  Each
    [async] function becomes a computation in a state-and-exception monad
    over an explicit [World]; [await] is sequencing, a rejected promise is a
    [Throw] completion, and [try { } catch { }] is [try_catch]. *)

From Stdlib Require Import ZArith QArith List Lia.
From stdpp Require Import base option strings gmap.
Import ListNotations.

Local Open Scope Z_scope.
Local Open Scope string_scope.
Local Set Warnings "-register-all".

(** ** JavaScript values and string conversion *)

(** The values that reach the pipeline at run time: whatever [JSON.parse]
    produces for a request body, plus [undefined].  A number carries its
    [Number::toString] rendering, which is all the code ever asks of it. *)
Inductive value : Type :=
| VUndefined
| VNull
| VBool (b : bool)
| VNum (shown : string)
| VStr (s : string)
| VArr (elems : list value)
| VObj (props : list (string * value)).

(** What a thrown JavaScript value carries: the error's name and message. *)
Record exn : Type := Exn { exn_name : string; exn_message : string }.

Definition TypeError (msg : string) : exn := Exn "TypeError" msg.

(** String(b) for a boolean. *)
Definition String_of_bool (b : bool) : string :=
  if b then "true" else "false".

(** [JSON.parse] creates own data properties, so a key of the parsed text
    shadows the method of the same name on [Object.prototype]. *)
Definition has_own (name : string) (props : list (string * value)) : bool :=
  existsb (fun kv => String.eqb (fst kv) name) props.

(** ECMAScript [ToString], as a template literal applies it to each
    substitution.  [None] stands for the [TypeError] "Cannot convert object
    to primitive value".

    An object goes through [OrdinaryToPrimitive] with hint string: it calls
    the object's [toString] when that property is callable, then [valueOf].
    A parsed JSON object has no callable own property; without an own
    [toString] key it inherits [Object.prototype.toString] and renders as
    [[object Object]]; with one, the non-callable value is skipped,
    [valueOf] (inherited or not) yields no primitive, and the conversion
    throws.  An array renders as [Array.prototype.join] with a comma, where
    [null] and [undefined] elements render as the empty string. *)
Fixpoint ToString (v : value) : option string :=
  match v with
  | VUndefined => Some "undefined"
  | VNull => Some "null"
  | VBool b => Some (String_of_bool b)
  | VNum shown => Some shown
  | VStr s => Some s
  | VArr elems =>
      (fix join (first : bool) (es : list value) : option string :=
         match es with
         | [] => Some ""
         | e :: es' =>
             let sep := if first then "" else "," in
             match (match e with
                    | VUndefined | VNull => Some ""
                    | _ => ToString e
                    end), join false es' with
             | Some s, Some rest => Some (sep +:+ s +:+ rest)
             | _, _ => None
             end
         end) true elems
  | VObj props =>
      if has_own "toString" props then None else Some "[object Object]"
  end.

(** ** The world the code runs in *)

(** A Redis string key: its value and, when it was written with [EX], the
    instant (in seconds) at which it expires. *)
Record Entry : Type := mkEntry { payload : string; deadline : option Z }.

(** The commands this code sends to Redis. *)
Inductive command : Type :=
| GET (key : string)
| SET_EX (key : string) (val : string) (seconds : Z).

Inductive level : Type := Info | Warn | Error | ConsoleError.

(** Everything the code cannot control.  [random n] is the n-th value
    [Math.random] returns; [redis_error n] is the rejection, if any, of the
    n-th command sent to Redis; [sink_error n] is the rejection, if any, of
    the n-th call of [sendNotification]. *)
Record Env : Type := mkEnv {
  random : nat -> Q;
  redis_error : nat -> option exn;
  sink_error : nat -> option exn
}.

Record World : Type := mkWorld {
  env : Env;
  store : gmap string Entry;       (* the Redis keyspace *)
  clock : Z;                       (* seconds *)
  drawn : nat;                     (* calls of Math.random so far *)
  issued : list command;           (* Redis commands so far, oldest first *)
  sent : list (string * string);   (* sendNotification calls, oldest first *)
  log : list (level * string)      (* logger and console lines, oldest first *)
}.

Definition with_store (st : gmap string Entry) (w : World) : World :=
  mkWorld (env w) st (clock w) (drawn w) (issued w) (sent w) (log w).
Definition with_clock (t : Z) (w : World) : World :=
  mkWorld (env w) (store w) t (drawn w) (issued w) (sent w) (log w).
Definition with_drawn (n : nat) (w : World) : World :=
  mkWorld (env w) (store w) (clock w) n (issued w) (sent w) (log w).
Definition with_issued (cs : list command) (w : World) : World :=
  mkWorld (env w) (store w) (clock w) (drawn w) cs (sent w) (log w).
Definition with_sent (ns : list (string * string)) (w : World) : World :=
  mkWorld (env w) (store w) (clock w) (drawn w) (issued w) ns (log w).
Definition with_log (ls : list (level * string)) (w : World) : World :=
  mkWorld (env w) (store w) (clock w) (drawn w) (issued w) (sent w) ls.

(** Time passing between two calls; nothing else changes.  Within a call
    the clock stands still. *)
Definition elapse (seconds : N) (w : World) : World :=
  with_clock (clock w + Z.of_N seconds) w.

(** ** Computations: state and exceptions *)

Inductive Completion (A : Type) : Type :=
| Normal (a : A)
| Throw (e : exn).
Arguments Normal {A} a.
Arguments Throw {A} e.

Definition Eff (A : Type) : Type := World -> Completion A * World.

Definition ret {A} (a : A) : Eff A := fun w => (Normal a, w).

Definition throw {A} (e : exn) : Eff A := fun w => (Throw e, w).

Definition bind {A B} (c : Eff A) (k : A -> Eff B) : Eff B :=
  fun w =>
    match c w with
    | (Normal a, w') => k a w'
    | (Throw e, w') => (Throw e, w')
    end.

(** [try { body } catch (error) { handler }]: the effects of [body] up to
    the throw stay in the world. *)
Definition try_catch {A} (body : Eff A) (handler : exn -> Eff A) : Eff A :=
  fun w =>
    match body w with
    | (Normal a, w') => (Normal a, w')
    | (Throw e, w') => handler e w'
    end.

Declare Scope eff_scope.
Delimit Scope eff_scope with eff.
Notation "'let!' x ':=' c 'in' k" := (bind c (fun x => k))
  (at level 10, x name, c at level 100, k at level 200) : eff_scope.
Notation "c ';;' k" := (bind c (fun _ => k))
  (at level 100, k at level 200, right associativity) : eff_scope.
Local Open Scope eff_scope.

(** ** Primitive effects *)

(** A template literal: its literal chunks and substitutions, left to
    right.  Evaluation converts each substitution with [ToString] and throws
    at the first one that cannot be converted. *)
Inductive piece : Type :=
| Lit (s : string)
| Sub (v : value).

Fixpoint render (ps : list piece) : option string :=
  match ps with
  | [] => Some ""
  | Lit s :: ps' => (fun rest => s +:+ rest) <$> render ps'
  | Sub v :: ps' =>
      match ToString v with
      | Some s => (fun rest => s +:+ rest) <$> render ps'
      | None => None
      end
  end.

Definition template (ps : list piece) : Eff string :=
  match render ps with
  | Some s => ret s
  | None => throw (TypeError "Cannot convert object to primitive value")
  end.

(** Modelled from the spec: [utils/logger] is not among the sources; the
    pipeline only "logs", so [logger.info], [logger.warn] and
    [logger.error] (and [console.error]) add one line to the log and
    return.  The argument is evaluated by the caller, before the call. *)
Definition write_log (lv : level) (line : string) : Eff unit :=
  fun w => (Normal tt, with_log (log w ++ [(lv, line)]) w).

Definition logger_info : string -> Eff unit := write_log Info.
Definition logger_warn : string -> Eff unit := write_log Warn.
Definition logger_error : string -> Eff unit := write_log Error.
Definition console_error (err : exn) : Eff unit :=
  write_log ConsoleError (exn_name err +:+ ": " +:+ exn_message err).

(** The value a keyspace holds under [key] at instant [t]: an entry whose
    deadline has been reached is gone. *)
Definition read_at (st : gmap string Entry) (t : Z) (key : string) : option string :=
  match st !! key with
  | Some e =>
      match deadline e with
      | Some d => if (t <? d)%Z then Some (payload e) else None
      | None => Some (payload e)
      end
  | None => None
  end.

(** The value Redis holds under [key] at the world's instant. *)
Definition live (w : World) (key : string) : option string :=
  read_at (store w) (clock w) key.

(** The rejection, if any, that awaits the next Redis command. *)
Definition next_redis_error (w : World) : option exn :=
  redis_error (env w) (length (issued w)).

(** The rejection, if any, that awaits the next [sendNotification]. *)
Definition next_sink_error (w : World) : option exn :=
  sink_error (env w) (length (sent w)).

(** [await redis.get(key)]: the string stored under [key], or [null]
    ([None]) when there is none.  A rejected command leaves the keyspace as
    it was. *)
Definition redis_get (key : string) : Eff (option string) :=
  fun w =>
    let w' := with_issued (issued w ++ [GET key]) w in
    match next_redis_error w with
    | Some e => (Throw e, w')
    | None => (Normal (live w key), w')
    end.

(** [await redis.set(key, val, 'EX', seconds)]: the entry replaces any
    earlier one and expires [seconds] after the instant of the write.  A
    rejected command leaves the keyspace as it was. *)
Definition redis_set (key val : string) (seconds : Z) : Eff unit :=
  fun w =>
    let w' := with_issued (issued w ++ [SET_EX key val seconds]) w in
    match next_redis_error w with
    | Some e => (Throw e, w')
    | None =>
        (Normal tt,
         with_store (<[key := mkEntry val (Some (clock w + seconds))]> (store w)) w')
    end.

(** [Math.random()]. *)
Definition Math_random : Eff Q :=
  fun w => (Normal (random (env w) (drawn w)), with_drawn (S (drawn w)) w).

(** The double nearest to the literal [0.3]; comparison of doubles is
    exact, so [x > 0.3] is this comparison of rationals. *)
Definition lit_0_3 : Q := 5404319552844595 # 18014398509481984.

Definition gt_0_3 (x : Q) : bool := negb (Qle_bool x lit_0_3).

(** Truthiness of a [string | null]: [null] and the empty string are
    falsy. *)
Definition truthy (s : option string) : bool :=
  match s with
  | Some "" | None => false
  | Some _ => true
  end.

(** [cachedResult === 'true'] for a [string | null]. *)
Definition is_true_string (s : option string) : bool :=
  match s with
  | Some s' => String.eqb s' "true"
  | None => false
  end.

(** ** src/services/externalVerification.ts *)

Record VerificationResult : Type := mkResult {
  success : bool;
  message : option string
}.

(** The body of the [try] block of [verifyMerchant]. *)
Definition verifyMerchant_try (merchantId : value) : Eff VerificationResult :=
  let! line := template [Lit "Starting verification for merchant: "; Sub merchantId] in
  logger_info line ;;
  let! key := template [Lit "merchant_verification:"; Sub merchantId] in
  let! cachedResult := redis_get key in
  if truthy cachedResult then
    let! line := template [Lit "Found cached verification result for merchant "; Sub merchantId] in
    logger_info line ;;
    ret (mkResult (is_true_string cachedResult) None)
  else
    let! r := Math_random in
    let isVerified := gt_0_3 r in
    let! line := template [Lit "Verification result for "; Sub merchantId; Lit ": "; Sub (VBool isVerified)] in
    logger_info line ;;
    let! key := template [Lit "merchant_verification:"; Sub merchantId] in
    redis_set key (String_of_bool isVerified) 3600 ;;
    ret (mkResult isVerified
           (Some (if isVerified then "Verified successfully" else "Verification failed"))).

(** The [catch] block of [verifyMerchant]. *)
Definition verifyMerchant_catch (merchantId : value) (error : exn) : Eff VerificationResult :=
  let! line := template [Lit "Error verifying merchant "; Sub merchantId; Lit ":"] in
  logger_error line ;;
  ret (mkResult false (Some "Internal error during verification")).

(** [verifyMerchant].  Its parameter is declared [string]; the routes pass
    it [req.body], of type [any], so the embedding takes a [value]. *)
Definition verifyMerchant (merchantId : value) : Eff VerificationResult :=
  try_catch (verifyMerchant_try merchantId) (verifyMerchant_catch merchantId).

(** ** The worker of queue ['external-verification'] *)

Definition VERIFICATION_QUEUE : string := "external-verification".

Record VerificationJobData : Type := mkJobData { merchantId : string }.
Record Job : Type := mkJob { data : VerificationJobData }.

(** Modelled from the spec: [sendNotification] of [services/notifications]
    is not among the sources.  The Notification Sink "accepts a merchant
    identifier and a message string, delivers it out-of-band" and may fail:
    the call is recorded, and it returns or rejects as the environment
    decides. *)
Definition sendNotification (merchantId message : string) : Eff unit :=
  fun w =>
    let w' := with_sent (sent w ++ [(merchantId, message)]) w in
    match next_sink_error w with
    | Some e => (Throw e, w')
    | None => (Normal tt, w')
    end.

(** The processor function given to [new Worker(...)]. *)
Definition externalVerificationWorker (job : Job) : Eff VerificationResult :=
  let merchantId := merchantId (data job) in
  try_catch
    (let! line := template [Lit "Processing verification for merchant: "; Sub (VStr merchantId)] in
     logger_info line ;;
     let! result := verifyMerchant (VStr merchantId) in
     (if success result then
        sendNotification merchantId "Verification successful!" ;;
        let! line := template [Lit "Merchant "; Sub (VStr merchantId); Lit " verified successfully."] in
        logger_info line
      else
        sendNotification merchantId "Verification failed!" ;;
        let! line := template [Lit "Merchant "; Sub (VStr merchantId); Lit " verification failed."] in
        logger_warn line) ;;
     ret result)
    (fun error =>
       let! line := template [Lit "Error processing merchant "; Sub (VStr merchantId); Lit ":"] in
       logger_error line ;;
       throw error).

(** How BullMQ settles a job: the processor's return value completes it;
    a rejection fails it, which hands it to the queue's retry policy. *)
Inductive JobState : Type :=
| Completed (returnvalue : VerificationResult)
| Failed (failedReason : exn).

Definition settle (c : Completion VerificationResult) : JobState :=
  match c with
  | Normal r => Completed r
  | Throw e => Failed e
  end.

(** One delivery of a job: run the processor, settle the job, and fire the
    matching event listener (['completed'] or ['failed']). *)
Definition deliver (job : Job) (w : World) : JobState * World :=
  match externalVerificationWorker job w with
  | (Normal r, w') =>
      (Completed r,
       with_log (log w' ++ [(Info, "Job " +:+ merchantId (data job) +:+ " completed")]) w')
  | (Throw e, w') =>
      (Failed e,
       with_log (log w' ++ [(Error, "Job for merchant " +:+ merchantId (data job) +:+ " failed:")]) w')
  end.

(** ** The Express routes *)

Record Request : Type := mkRequest { body : value }.

Inductive Sent : Type :=
| send (text : string)
| json (v : value).

Record Response : Type := mkResponse { status : Z; content : Sent }.

(** The JSON rendering of a result; an absent [message] is omitted. *)
Definition result_json (r : VerificationResult) : value :=
  VObj (("success", VBool (success r)) ::
        match message r with
        | Some m => [("message", VStr m)]
        | None => []
        end).

(** [router.post('/submit', ...)], mounted under [/merchant]. *)
Definition post_submit (req : Request) : Eff Response :=
  try_catch
    (let! result := verifyMerchant (body req) in
     ret (mkResponse 200 (json (VObj [("success", VBool true); ("data", result_json result)]))))
    (fun err =>
       console_error err ;;
       ret (mkResponse 500 (json (VObj [("success", VBool false); ("message", VStr "Server Error")])))).

(** [router.post('/external-verification', ...)], mounted under
    [/webhook]. *)
Definition post_external_verification (req : Request) : Eff Response :=
  try_catch
    (verifyMerchant (body req) ;;
     ret (mkResponse 200 (send "OK")))
    (fun err =>
       console_error err ;;
       ret (mkResponse 500 (send "Webhook processing failed"))).

(** ** The browser's API client *)

(** Truthiness of a JavaScript value: [undefined], [null], [false], the
    numbers [0] and [NaN] and the empty string are falsy. *)
Definition truthy_value (v : value) : bool :=
  match v with
  | VUndefined | VNull => false
  | VBool b => b
  | VNum shown => negb (String.eqb shown "0" || String.eqb shown "NaN")
  | VStr s => negb (String.eqb s "")
  | VArr _ | VObj _ => true
  end.

(** The own property [name] of a parsed object; of two equal keys in the
    JSON text, [JSON.parse] keeps the later value. *)
Definition own_property (name : string) (props : list (string * value)) : option value :=
  snd <$> find (fun kv => String.eqb (fst kv) name) (rev props).

(** The property read [v.name], for a name that no built-in prototype
    defines (here [error] and [message]): it throws on [null] and
    [undefined], finds own properties of objects, and is [undefined] on
    everything else. *)
Definition Get (v : value) (name : string) : Completion value :=
  match v with
  | VUndefined | VNull =>
      Throw (TypeError ("Cannot read properties of " +:+
                        default "" (ToString v) +:+ " (reading '" +:+ name +:+ "')"))
  | VObj props => Normal (default VUndefined (own_property name props))
  | _ => Normal VUndefined
  end.

(** The optional read [v?.name]. *)
Definition Get_optional (v : value) (name : string) : Completion value :=
  match v with
  | VUndefined | VNull => Normal VUndefined
  | _ => Get v name
  end.

(** [new Error(message)]; the message is converted with [ToString]. *)
Definition new_Error (msg : value) : Completion exn :=
  match ToString msg with
  | Some text => Normal (Exn "Error" (if msg is VUndefined then "" else text))
  | None => Throw (TypeError "Cannot convert object to primitive value")
  end.

(** What [fetch] resolved to, as the client uses it: the status and the
    outcome of [response.json()]. *)
Record HttpReply : Type := mkHttpReply {
  http_status : Z;
  http_json : Completion value
}.

(** [response.ok]. *)
Definition http_ok (reply : HttpReply) : bool :=
  (200 <=? http_status reply)%Z && (http_status reply <=? 299)%Z.

(** [ApiClient.getAuthHeader]: [session] is what
    [supabase.auth.getSession()] gave, [None] for no session and
    [Some token] for a session with that access token. *)
Definition getAuthHeader (session : Completion (option string))
    : Completion (list (string * string)) :=
  match session with
  | Throw e => Throw e
  | Normal s =>
      if truthy s then
        Normal [("Authorization", "Bearer " +:+ default "" s);
                ("Content-Type", "application/json")]
      else Throw (Exn "Error" "Not authenticated. Please log in.")
  end.

(** [ApiClient.submitMerchantApplication], given what the session lookup
    and [fetch] resolve to. *)
Definition submitMerchantApplication
    (session : Completion (option string)) (fetched : Completion HttpReply)
    : Completion value :=
  match getAuthHeader session with
  | Throw e => Throw e
  | Normal headers =>
      match fetched with
      | Throw e => Throw e
      | Normal response =>
          match http_json response with
          | Throw e => Throw e
          | Normal result =>
              if negb (http_ok response) then
                match Get result "error" with
                | Throw e => Throw e
                | Normal err =>
                    match Get_optional err "message" with
                    | Throw e => Throw e
                    | Normal msg =>
                        match new_Error (if truthy_value msg then msg
                                         else VStr "Failed to submit application") with
                        | Throw e => Throw e
                        | Normal e => Throw e
                        end
                    end
                end
              else Normal result
          end
      end
  end.

(** The reply a client receives for a JSON response of a route: the status
    and the body as sent. *)
Definition reply_of (resp : Response) (payload : value) : HttpReply :=
  mkHttpReply (status resp) (Normal payload).

(** ** Vocabulary of the statements *)

(** The cache key of a merchant identifier. *)
Definition cache_key (m : string) : string := "merchant_verification:" +:+ m.

(** [w'] is [w] after the Redis commands [cmds], [draws] calls of
    [Math.random] and the notifications [notes], with keyspace [st]. *)
Definition evolves (w w' : World) (st : gmap string Entry)
    (cmds : list command) (draws : nat) (notes : list (string * string)) : Prop :=
  env w' = env w /\ clock w' = clock w /\ store w' = st /\
  issued w' = (issued w ++ cmds)%list /\ drawn w' = (drawn w + draws)%nat /\
  sent w' = (sent w ++ notes)%list.

(** The verdict the mocked check computes from the next random draw. *)
Definition next_verdict (w : World) : bool := gt_0_3 (random (env w) (drawn w)).

(** The result of the [catch] block. *)
Definition internal_error : VerificationResult :=
  mkResult false (Some "Internal error during verification").

(** The result of a fresh computation. *)
Definition fresh_result (verdict : bool) : VerificationResult :=
  mkResult verdict
    (Some (if verdict then "Verified successfully" else "Verification failed")).

(** The text of the notification for an outcome. *)
Definition notice (ok : bool) : string :=
  if ok then "Verification successful!" else "Verification failed!".

(** The world in which the processor calls the service: one line logged. *)
Definition processing (job : Job) (w : World) : World :=
  with_log
    (log w ++ [(Info, "Processing verification for merchant: " +:+ merchantId (data job))])
    w.

(** The response of [/merchant/submit] around a result. *)
Definition submit_ok (r : VerificationResult) : Response :=
  mkResponse 200 (json (VObj [("success", VBool true); ("data", result_json r)])).

(** The response of the [catch] block of [/merchant/submit]. *)
Definition submit_failed : Response :=
  mkResponse 500 (json (VObj [("success", VBool false); ("message", VStr "Server Error")])).

(** Every command sent to Redis between [w] and [w'] was answered. *)
Definition cache_answered (w w' : World) : Prop :=
  forall i : nat,
    (length (issued w) <= i < length (issued w'))%nat ->
    redis_error (env w) i = None.

(** The cache access of a call on [m] in [w] throws [e]: either the lookup
    is rejected, or the lookup misses and the write is rejected. *)
Definition cache_access_throws (m : string) (w : World) (e : exn) : Prop :=
  next_redis_error w = Some e \/
  (next_redis_error w = None /\
   truthy (live w (cache_key m)) = false /\
   redis_error (env w) (S (length (issued w))) = Some e).

(** The key a command addresses. *)
Definition command_key (c : command) : string :=
  match c with
  | GET key => key
  | SET_EX key _ _ => key
  end.

(** *** Sample environments and inputs *)

(** A reachable cache, a reachable sink, and draws of 0.9: every fresh
    check succeeds. *)
Definition calm : Env := mkEnv (fun _ => 9 # 10)%Q (fun _ => None) (fun _ => None).

(** As [calm], with draws of 0.1: every fresh check fails. *)
Definition strict : Env := mkEnv (fun _ => 1 # 10)%Q (fun _ => None) (fun _ => None).

(** Draws of 0.9, then 0.1 from the second draw on. *)
Definition fickle : Env :=
  mkEnv (fun n => match n with O => 9 # 10 | _ => 1 # 10 end)%Q
        (fun _ => None) (fun _ => None).

(** What a Redis client throws when the server is unreachable. *)
Definition ECONNREFUSED : exn := Exn "Error" "connect ECONNREFUSED 127.0.0.1:6379".

(** Redis rejects every command. *)
Definition outage : Env :=
  mkEnv (fun _ => 9 # 10)%Q (fun _ => Some ECONNREFUSED) (fun _ => None).

(** Redis answers the lookup and rejects the write. *)
Definition flaky : Env :=
  mkEnv (fun _ => 9 # 10)%Q
        (fun n => match n with O => None | _ => Some ECONNREFUSED end)
        (fun _ => None).

(** What a notification service throws when its gateway is down. *)
Definition push_failed : exn := Exn "Error" "push gateway timeout".

(** The notification service rejects every call. *)
Definition muted : Env :=
  mkEnv (fun _ => 9 # 10)%Q (fun _ => None) (fun _ => Some push_failed).

(** The notification service rejects the first call and accepts the
    later ones. *)
Definition hiccup : Env :=
  mkEnv (fun _ => 9 # 10)%Q (fun _ => None)
        (fun n => match n with O => Some push_failed | _ => None end).

(** A process that starts at instant 0 on an empty keyspace. *)
Definition boot (e : Env) : World := mkWorld e ∅ 0 0 [] [] [].

(** The first call of the sample run: a miss at instant 0 with a draw of
    0.9, which stores ["true"] until instant 3600. *)
Definition after_first_call : World := snd (verifyMerchant (VStr "M-001") (boot calm)).

(** The first call of a run whose draws are 0.9 and then 0.1. *)
Definition after_lucky_call : World := snd (verifyMerchant (VStr "M-001") (boot fickle)).

(** A job for merchant [M-001]. *)
Definition job_M001 : Job := mkJob (mkJobData "M-001").

(** The body the repository's test client posts to [/merchant/submit]. *)
Definition client_payload : value :=
  VObj [("merchantId", VStr "M12345");
        ("name", VStr "Test Merchant");
        ("email", VStr "test@example.com")].

(** *** The paths of a call *)

(** The four ways a call of [verifyMerchant] on an argument rendered as [s]
    can go from [w], each with the result it returns and the world it
    leaves. *)
Inductive verify_path (s : string) (w : World) : VerificationResult -> World -> Prop :=
| path_get_rejected (e : exn) (w' : World) :
    next_redis_error w = Some e ->
    evolves w w' (store w) [GET (cache_key s)] 0 [] ->
    verify_path s w internal_error w'
| path_hit (w' : World) :
    next_redis_error w = None ->
    truthy (live w (cache_key s)) = true ->
    evolves w w' (store w) [GET (cache_key s)] 0 [] ->
    verify_path s w (mkResult (is_true_string (live w (cache_key s))) None) w'
| path_set_rejected (e : exn) (w' : World) :
    next_redis_error w = None ->
    truthy (live w (cache_key s)) = false ->
    redis_error (env w) (S (length (issued w))) = Some e ->
    evolves w w' (store w)
      [GET (cache_key s); SET_EX (cache_key s) (String_of_bool (next_verdict w)) 3600]
      1 [] ->
    verify_path s w internal_error w'
| path_stored (w' : World) :
    next_redis_error w = None ->
    truthy (live w (cache_key s)) = false ->
    redis_error (env w) (S (length (issued w))) = None ->
    evolves w w'
      (<[cache_key s :=
           mkEntry (String_of_bool (next_verdict w)) (Some (clock w + 3600))]>
         (store w))
      [GET (cache_key s); SET_EX (cache_key s) (String_of_bool (next_verdict w)) 3600]
      1 [] ->
    verify_path s w (fresh_result (next_verdict w)) w'.

(** * Properties *)

(** ** Rendering of the template literals *)

Lemma append_empty_r (s : string) : s +:+ "" = s.
Proof.
  induction s as [|a s IH]; [reflexivity|].
  change (String a (s +:+ "") = String a s). by rewrite IH.
Qed.

Lemma render_lit_sub (a : string) (v : value) (s : string) :
  ToString v = Some s -> render [Lit a; Sub v] = Some (a +:+ s).
Proof.
  intros H. cbn [render]. rewrite H. cbn [fmap option_fmap option_map].
  by rewrite append_empty_r.
Qed.

Lemma render_lit_sub_lit (a b : string) (v : value) (s : string) :
  ToString v = Some s -> render [Lit a; Sub v; Lit b] = Some (a +:+ s +:+ b).
Proof.
  intros H. cbn [render]. rewrite H. cbn [fmap option_fmap option_map].
  by rewrite append_empty_r.
Qed.

Lemma render_verdict (a b : string) (v : value) (s : string) (x : bool) :
  ToString v = Some s ->
  render [Lit a; Sub v; Lit b; Sub (VBool x)]
  = Some (a +:+ s +:+ b +:+ String_of_bool x).
Proof.
  intros H. cbn [render]. rewrite H. cbn [fmap option_fmap option_map ToString].
  by rewrite append_empty_r.
Qed.

(** A merchant identifier that is a string renders as itself. *)
Lemma ToString_VStr (m : string) : ToString (VStr m) = Some m.
Proof. reflexivity. Qed.

(** ** The four paths of [verifyMerchant] *)

Arguments gt_0_3 : simpl never.
Arguments read_at : simpl never.
Arguments render : simpl never.

Ltac run_verify H :=
  unfold verifyMerchant, try_catch, verifyMerchant_try, verifyMerchant_catch,
    bind, template;
  rewrite ?(render_lit_sub _ _ _ H), ?(render_lit_sub_lit _ _ _ _ H),
    ?(render_verdict _ _ _ _ _ H);
  unfold redis_get, next_redis_error, live; cbn.

Ltac close_evolves :=
  eexists; split; [reflexivity|];
  unfold evolves; cbn; rewrite ?app_nil_r; repeat split; try reflexivity; try lia.

Section VerifyCases.
Variable v : value.
Variable s : string.
Hypothesis Hs : ToString v = Some s.
Variable w : World.

(** The lookup is rejected: the [catch] block answers, nothing is
    computed and nothing is written. *)
Lemma verify_get_rejected (e : exn) :
  next_redis_error w = Some e ->
  exists w', verifyMerchant v w = (Normal internal_error, w') /\
             evolves w w' (store w) [GET (cache_key s)] 0 [].
Proof.
  intros He. run_verify Hs. unfold next_redis_error in He. rewrite He.
  close_evolves.
Qed.

(** The lookup finds a truthy string: it decides the result. *)
Lemma verify_hit :
  next_redis_error w = None ->
  truthy (live w (cache_key s)) = true ->
  exists w',
    verifyMerchant v w
    = (Normal (mkResult (is_true_string (live w (cache_key s))) None), w') /\
    evolves w w' (store w) [GET (cache_key s)] 0 [].
Proof.
  intros He Hhit. run_verify Hs.
  unfold next_redis_error in He. rewrite He.
  unfold live, cache_key in Hhit. rewrite Hhit.
  cbn. close_evolves.
Qed.

(** The lookup finds nothing usable and the write is rejected: the verdict
    is computed, then dropped by the [catch] block. *)
Lemma verify_miss_set_rejected (e : exn) :
  next_redis_error w = None ->
  truthy (live w (cache_key s)) = false ->
  redis_error (env w) (S (length (issued w))) = Some e ->
  exists w',
    verifyMerchant v w = (Normal internal_error, w') /\
    evolves w w' (store w)
      [GET (cache_key s); SET_EX (cache_key s) (String_of_bool (next_verdict w)) 3600]
      1 [].
Proof.
  intros He Hmiss Hset. run_verify Hs.
  unfold next_redis_error in He. rewrite He.
  unfold live, cache_key in Hmiss. rewrite Hmiss.
  rewrite ?(render_verdict _ _ _ _ _ Hs), ?(render_lit_sub _ _ _ Hs). cbn.
  unfold redis_set, next_redis_error. cbn.
  rewrite length_app, Nat.add_1_r, Hset.
  rewrite ?(render_lit_sub_lit _ _ _ _ Hs). cbn. close_evolves. by rewrite <- app_assoc.
Qed.

(** The lookup finds nothing usable and the write is accepted: the
    verdict is stored for 3600 seconds and returned. *)
Lemma verify_miss_stored :
  next_redis_error w = None ->
  truthy (live w (cache_key s)) = false ->
  redis_error (env w) (S (length (issued w))) = None ->
  exists w',
    verifyMerchant v w = (Normal (fresh_result (next_verdict w)), w') /\
    evolves w w'
      (<[cache_key s :=
           mkEntry (String_of_bool (next_verdict w)) (Some (clock w + 3600))]>
         (store w))
      [GET (cache_key s); SET_EX (cache_key s) (String_of_bool (next_verdict w)) 3600]
      1 [].
Proof.
  intros He Hmiss Hset. run_verify Hs.
  unfold next_redis_error in He. rewrite He.
  unfold live, cache_key in Hmiss. rewrite Hmiss.
  rewrite ?(render_verdict _ _ _ _ _ Hs), ?(render_lit_sub _ _ _ Hs). cbn.
  unfold redis_set, next_redis_error. cbn.
  rewrite length_app, Nat.add_1_r, Hset. cbn.
  close_evolves. by rewrite <- app_assoc.
Qed.

(** Whatever the cache and the random source do, a call on an argument
    that renders as a string returns; its commands concern that string's
    key only, and it sends no notification. *)
Lemma verify_returns :
  exists r w' cmds draws st,
    verifyMerchant v w = (Normal r, w') /\ evolves w w' st cmds draws [].
Proof.
  destruct (next_redis_error w) as [e|] eqn:He.
  { destruct (verify_get_rejected e He) as (w' & ? & ?). eauto 10. }
  destruct (truthy (live w (cache_key s))) eqn:Ht.
  { destruct (verify_hit He Ht) as (w' & ? & ?). eauto 10. }
  destruct (redis_error (env w) (S (length (issued w)))) as [e|] eqn:Hset.
  { destruct (verify_miss_set_rejected e He Ht Hset) as (w' & ? & ?). eauto 10. }
  destruct (verify_miss_stored He Ht Hset) as (w' & ? & ?). eauto 10.
Qed.
End VerifyCases.

(** ** The worker's processor *)

(** One run of the processor: the service returns some [r], the sink is
    called once with the text for [r], and the sink alone decides between
    returning [r] and throwing. *)
Lemma worker_run (job : Job) (w : World) (r : VerificationResult) (w1 : World) :
  verifyMerchant (VStr (merchantId (data job))) (processing job w) = (Normal r, w1) ->
  exists w',
    externalVerificationWorker job w
    = (match next_sink_error w1 with
       | None => Normal r
       | Some e => Throw e
       end, w') /\
    evolves w1 w' (store w1) [] 0 [(merchantId (data job), notice (success r))].
Proof.
  intros Hv. unfold externalVerificationWorker, try_catch, bind, template.
  rewrite !(render_lit_sub _ _ _ (ToString_VStr _)),
    !(render_lit_sub_lit _ _ _ _ (ToString_VStr _)).
  cbn [ret logger_info write_log]. fold (processing job w). rewrite Hv.
  unfold sendNotification. destruct (success r); cbn;
    destruct (next_sink_error w1) as [e|]; cbn;
    close_evolves.
Qed.

(** The service leaves the sink and its oracle alone, so the sink's answer
    is already fixed when the job starts. *)
Lemma worker_sink_fixed (job : Job) (w : World) (r : VerificationResult) (w1 : World) :
  verifyMerchant (VStr (merchantId (data job))) (processing job w) = (Normal r, w1) ->
  next_sink_error w1 = next_sink_error w /\ sent w1 = sent w.
Proof.
  intros Hv.
  destruct (verify_returns _ _ (ToString_VStr (merchantId (data job))) (processing job w))
    as (r' & w1' & cmds & draws & st & Hv' & Hev).
  rewrite Hv in Hv'. injection Hv' as -> ->.
  destruct Hev as (Henv & _ & _ & _ & _ & Hsent).
  rewrite app_nil_r in Hsent.
  unfold next_sink_error. rewrite Henv, Hsent. split; reflexivity.
Qed.

(** ** The routes *)

Lemma post_submit_run (req : Request) (w : World) :
  fst (post_submit req w)
  = match fst (verifyMerchant (body req) w) with
    | Normal r => Normal (submit_ok r)
    | Throw _ => Normal submit_failed
    end.
Proof.
  unfold post_submit, try_catch, bind.
  destruct (verifyMerchant (body req) w) as [[r|e] w']; reflexivity.
Qed.

Lemma post_external_verification_run (req : Request) (w : World) :
  fst (post_external_verification req w)
  = match fst (verifyMerchant (body req) w) with
    | Normal _ => Normal (mkResponse 200 (send "OK"))
    | Throw _ => Normal (mkResponse 500 (send "Webhook processing failed"))
    end.
Proof.
  unfold post_external_verification, try_catch, bind.
  destruct (verifyMerchant (body req) w) as [[r|e] w']; reflexivity.
Qed.

(** ** Cache behaviour of [verifyMerchant] *)

Lemma read_at_stable (st : gmap string Entry) (t t' : Z) (key a b : string) :
  read_at st t key = Some a -> read_at st t' key = Some b -> a = b.
Proof.
  unfold read_at. destruct (st !! key) as [e|]; [|discriminate].
  destruct (deadline e) as [d|]; [|congruence].
  destruct (t <? d)%Z, (t' <? d)%Z; congruence.
Qed.

Lemma truthy_String_of_bool (b : bool) : truthy (Some (String_of_bool b)) = true.
Proof. by destruct b. Qed.

Lemma is_true_String_of_bool (b : bool) : is_true_string (Some (String_of_bool b)) = b.
Proof. by destruct b. Qed.

Lemma read_at_insert (st : gmap string Entry) (t : Z) (key val a : string) (d : option Z) :
  read_at (<[key := mkEntry val d]> st) t key = Some a -> a = val.
Proof.
  unfold read_at. rewrite lookup_insert_eq. cbn.
  destruct d as [d|]; [destruct (t <? d)%Z|]; congruence.
Qed.

(** C1 — Idempotence within the TTL window.  Let a first call on [m] return
    [r1] with every Redis command it sent answered (so it read the entry, or
    wrote it).  If the entry is still unexpired [d] seconds later and the
    lookup is answered, a second call returns the same [success], sends
    only the [GET], draws no random number and leaves the keyspace as it
    is. *)
Theorem verify_twice_within_ttl
    (m : string) (w : World) (r1 : VerificationResult) (w1 : World) (d : N) :
  verifyMerchant (VStr m) w = (Normal r1, w1) ->
  cache_answered w w1 ->
  is_Some (live (elapse d w1) (cache_key m)) ->
  next_redis_error (elapse d w1) = None ->
  exists w2,
    verifyMerchant (VStr m) (elapse d w1) = (Normal (mkResult (success r1) None), w2) /\
    evolves (elapse d w1) w2 (store w1) [GET (cache_key m)] 0 [].
Proof.
  intros Hfirst Hans [a Ha] Hget.
  assert (Hret : forall w' r st cmds draws,
             verifyMerchant (VStr m) w = (Normal r, w') ->
             evolves w w' st cmds draws [] ->
             r1 = r /\ store w1 = st /\ issued w1 = (issued w ++ cmds)%list).
  { intros w' r st cmds draws Hv (_ & _ & Hst & Hiss & _).
    rewrite Hfirst in Hv. injection Hv as -> ->. auto. }
  assert (Hsecond : truthy (Some a) = true -> is_true_string (Some a) = success r1 ->
            exists w2,
              verifyMerchant (VStr m) (elapse d w1)
              = (Normal (mkResult (success r1) None), w2) /\
              evolves (elapse d w1) w2 (store w1) [GET (cache_key m)] 0 []).
  { intros Ht Hv.
    destruct (verify_hit _ _ (ToString_VStr m) (elapse d w1) Hget) as (w2 & Hrun & Hev).
    - by rewrite Ha.
    - exists w2. rewrite Ha, Hv in Hrun. auto. }
  destruct (next_redis_error w) as [e|] eqn:He.
  { destruct (verify_get_rejected _ _ (ToString_VStr m) w e He) as (w' & Hv & Hev).
    destruct (Hret _ _ _ _ _ Hv Hev) as (_ & _ & Hiss).
    specialize (Hans (length (issued w))). unfold next_redis_error in He.
    rewrite Hans in He; [discriminate|]. rewrite Hiss, length_app. cbn. lia. }
  destruct (truthy (live w (cache_key m))) eqn:Ht.
  { destruct (verify_hit _ _ (ToString_VStr m) w He Ht) as (w' & Hv & Hev).
    destruct (Hret _ _ _ _ _ Hv Hev) as (-> & Hst & _).
    destruct (live w (cache_key m)) as [b|] eqn:Hb; [|discriminate].
    unfold live in Ha, Hb. cbn in Ha. rewrite Hst in Ha.
    assert (a = b) as -> by exact (read_at_stable _ _ _ _ _ _ Ha Hb).
    apply Hsecond; [exact Ht | reflexivity]. }
  destruct (redis_error (env w) (S (length (issued w)))) as [e|] eqn:Hset.
  { destruct (verify_miss_set_rejected _ _ (ToString_VStr m) w e He Ht Hset)
      as (w' & Hv & Hev).
    destruct (Hret _ _ _ _ _ Hv Hev) as (_ & _ & Hiss).
    rewrite (Hans (S (length (issued w)))) in Hset; [discriminate|].
    rewrite Hiss, length_app. cbn. lia. }
  destruct (verify_miss_stored _ _ (ToString_VStr m) w He Ht Hset) as (w' & Hv & Hev).
  destruct (Hret _ _ _ _ _ Hv Hev) as (-> & Hst & _).
  unfold live in Ha. cbn in Ha. rewrite Hst in Ha.
  apply read_at_insert in Ha. subst a.
  apply Hsecond; [apply truthy_String_of_bool | apply is_true_String_of_bool].
Qed.

Lemma verify_twice_within_ttl_witness :
  exists w2,
    verifyMerchant (VStr "M-001") (elapse 60 after_first_call)
    = (Normal (mkResult true None), w2) /\
    evolves (elapse 60 after_first_call) w2 (store after_first_call)
      [GET (cache_key "M-001")] 0 [].
Proof.
  apply (verify_twice_within_ttl "M-001" (boot calm) (fresh_result true)
           after_first_call 60).
  - reflexivity.
  - intros i _. reflexivity.
  - eexists. vm_compute. reflexivity.
  - reflexivity.
Defined.

(** C2 — The miss path caches both polarities.  When the lookup is answered
    and finds nothing usable, the call sends [SET key verdict EX 3600] with
    [key = merchant_verification:{m}] and the verdict rendered as ["true"]
    or ["false"]; when that command is answered, the keyspace holds exactly
    that string under the key, expiring 3600 seconds later, and the call
    returns the verdict. *)
Theorem verify_miss_caches_outcome (m : string) (w : World) :
  next_redis_error w = None ->
  truthy (live w (cache_key m)) = false ->
  exists r w',
    verifyMerchant (VStr m) w = (Normal r, w') /\
    issued w'
    = (issued w ++
       [GET ("merchant_verification:" +:+ m);
        SET_EX ("merchant_verification:" +:+ m)
          (if next_verdict w then "true" else "false") 3600])%list /\
    (redis_error (env w) (S (length (issued w))) = None ->
     success r = next_verdict w /\
     store w' !! ("merchant_verification:" +:+ m)
     = Some (mkEntry (if success r then "true" else "false") (Some (clock w + 3600)))).
Proof.
  intros He Hmiss.
  destruct (redis_error (env w) (S (length (issued w)))) as [e|] eqn:Hset.
  - destruct (verify_miss_set_rejected _ _ (ToString_VStr m) w e He Hmiss Hset)
      as (w' & Hv & _ & _ & _ & Hiss & _).
    exists internal_error, w'. repeat split; [exact Hv | exact Hiss | discriminate..].
  - destruct (verify_miss_stored _ _ (ToString_VStr m) w He Hmiss Hset)
      as (w' & Hv & _ & _ & Hst & Hiss & _).
    exists (fresh_result (next_verdict w)), w'.
    repeat split; [exact Hv | exact Hiss |].
    rewrite Hst. apply lookup_insert_eq.
Qed.

Lemma verify_miss_caches_outcome_witness :
  exists r w',
    verifyMerchant (VStr "M-001") (boot strict) = (Normal r, w') /\
    issued w'
    = [GET "merchant_verification:M-001";
       SET_EX "merchant_verification:M-001" "false" 3600] /\
    (redis_error strict 1 = None ->
     success r = false /\
     store w' !! "merchant_verification:M-001"
     = Some (mkEntry (if success r then "true" else "false") (Some 3600))).
Proof.
  apply (verify_miss_caches_outcome "M-001" (boot strict)); reflexivity.
Defined.

(** A computed [false] is cached as ["false"], and the next call within the
    hour answers [false] from the cache without a second draw. *)
Example negative_verdict_is_cached :
  let first := verifyMerchant (VStr "M-001") (boot strict) in
  let second := verifyMerchant (VStr "M-001") (elapse 10 (snd first)) in
  fst first = Normal (mkResult false (Some "Verification failed")) /\
  store (snd first) !! "merchant_verification:M-001"
  = Some (mkEntry "false" (Some 3600)) /\
  fst second = Normal (mkResult false None) /\
  drawn (snd second) = 1%nat /\
  issued (snd second)
  = [GET "merchant_verification:M-001";
     SET_EX "merchant_verification:M-001" "false" 3600;
     GET "merchant_verification:M-001"].
Proof. vm_compute. repeat split; reflexivity. Qed.

(** C3 — A throwing cache access is answered, not cached.  When the lookup
    is rejected, or the lookup misses and the write is rejected, the call
    returns [{ success: false, message: 'Internal error during
    verification' }] and the keyspace is what it was. *)
Theorem verify_cache_error_not_cached (m : string) (w : World) (e : exn) :
  cache_access_throws m w e ->
  exists w',
    verifyMerchant (VStr m) w
    = (Normal (mkResult false (Some "Internal error during verification")), w') /\
    store w' = store w.
Proof.
  intros [He | (He & Hmiss & Hset)].
  - destruct (verify_get_rejected _ _ (ToString_VStr m) w e He)
      as (w' & Hv & _ & _ & Hst & _).
    eauto.
  - destruct (verify_miss_set_rejected _ _ (ToString_VStr m) w e He Hmiss Hset)
      as (w' & Hv & _ & _ & Hst & _).
    eauto.
Qed.

Lemma verify_cache_error_not_cached_witness :
  (exists w',
     verifyMerchant (VStr "M-001") (boot outage)
     = (Normal (mkResult false (Some "Internal error during verification")), w') /\
     store w' = ∅) /\
  (exists w',
     verifyMerchant (VStr "M-001") (boot flaky)
     = (Normal (mkResult false (Some "Internal error during verification")), w') /\
     store w' = ∅).
Proof.
  split.
  - apply (verify_cache_error_not_cached "M-001" (boot outage) ECONNREFUSED).
    left. reflexivity.
  - apply (verify_cache_error_not_cached "M-001" (boot flaky) ECONNREFUSED).
    right. repeat split; reflexivity.
Defined.

(** An entry whose deadline has been reached reads as absent. *)
Lemma expired_entry_absent (w : World) (key : string) (e : Entry) (t : Z) :
  store w !! key = Some e -> deadline e = Some t -> t <= clock w ->
  live w key = None.
Proof.
  intros Hk Hd Ht. unfold live, read_at. rewrite Hk, Hd.
  destruct (clock w <? t)%Z eqn:Hlt; [apply Z.ltb_lt in Hlt; lia | reflexivity].
Qed.

(** C7 — TTL expiry.  When the entry of [m] has reached its deadline, a call
    whose two Redis commands are answered does not reuse it: it draws a
    fresh random number, returns the verdict of that draw, and overwrites
    the entry with that verdict for another 3600 seconds. *)
Theorem verify_after_expiry_recomputes
    (m : string) (w : World) (stale : Entry) (t : Z) :
  store w !! cache_key m = Some stale ->
  deadline stale = Some t ->
  t <= clock w ->
  next_redis_error w = None ->
  redis_error (env w) (S (length (issued w))) = None ->
  exists w',
    verifyMerchant (VStr m) w = (Normal (fresh_result (next_verdict w)), w') /\
    drawn w' = S (drawn w) /\
    issued w'
    = (issued w ++
       [GET (cache_key m);
        SET_EX (cache_key m) (String_of_bool (next_verdict w)) 3600])%list /\
    store w' !! cache_key m
    = Some (mkEntry (String_of_bool (next_verdict w)) (Some (clock w + 3600))).
Proof.
  intros Hk Hd Ht He Hset.
  assert (Hmiss : truthy (live w (cache_key m)) = false)
    by (by rewrite (expired_entry_absent _ _ _ _ Hk Hd Ht)).
  destruct (verify_miss_stored _ _ (ToString_VStr m) w He Hmiss Hset)
    as (w' & Hv & _ & _ & Hst & Hiss & Hdr & _).
  exists w'. repeat split; [exact Hv | lia | exact Hiss |].
  rewrite Hst. apply lookup_insert_eq.
Qed.

Lemma verify_after_expiry_recomputes_witness :
  exists w',
    verifyMerchant (VStr "M-001") (elapse 3600 after_lucky_call)
    = (Normal (fresh_result false), w') /\
    drawn w' = 2%nat /\
    issued w'
    = [GET "merchant_verification:M-001";
       SET_EX "merchant_verification:M-001" "true" 3600;
       GET "merchant_verification:M-001";
       SET_EX "merchant_verification:M-001" "false" 3600] /\
    store w' !! "merchant_verification:M-001" = Some (mkEntry "false" (Some 7200)).
Proof.
  apply (verify_after_expiry_recomputes "M-001" (elapse 3600 after_lucky_call)
           (mkEntry "true" (Some 3600)) 3600).
  - vm_compute. reflexivity.
  - reflexivity.
  - vm_compute. discriminate.
  - reflexivity.
  - reflexivity.
Defined.

(** Two calls an hour or more apart: the first stores its verdict, the
    second finds the entry expired and computes afresh. *)
Corollary verify_again_after_an_hour
    (m : string) (w : World) (r1 : VerificationResult) (w1 : World) (d : N) :
  verifyMerchant (VStr m) w = (Normal r1, w1) ->
  next_redis_error w = None ->
  truthy (live w (cache_key m)) = false ->
  (forall i, (i < 4)%nat -> redis_error (env w) (length (issued w) + i) = None) ->
  (3600 <= d)%N ->
  exists w2,
    verifyMerchant (VStr m) (elapse d w1)
    = (Normal (fresh_result (gt_0_3 (random (env w) (S (drawn w))))), w2) /\
    drawn w2 = S (S (drawn w)).
Proof.
  intros Hfirst He Hmiss Hup Hd.
  assert (Hset : redis_error (env w) (S (length (issued w))) = None)
    by (rewrite <- Nat.add_1_r; apply Hup; lia).
  destruct (verify_miss_stored _ _ (ToString_VStr m) w He Hmiss Hset)
    as (w' & Hv & Henv & Hclk & Hst & Hiss & Hdr & _).
  rewrite Hfirst in Hv. injection Hv as -> <-.
  assert (Hgone : truthy (live (elapse d w1) (cache_key m)) = false).
  { rewrite (expired_entry_absent (elapse d w1) (cache_key m)
               (mkEntry (String_of_bool (next_verdict w)) (Some (clock w + 3600)))
               (clock w + 3600)); [reflexivity | | reflexivity | cbn; lia].
    cbn. rewrite Hst. apply lookup_insert_eq. }
  destruct (verify_miss_stored _ _ (ToString_VStr m) (elapse d w1)) as (w2 & Hv2 & Hev2).
  - unfold next_redis_error. cbn. rewrite Henv, Hiss, length_app. cbn.
    apply Hup. lia.
  - exact Hgone.
  - cbn. rewrite Henv, Hiss, length_app. cbn.
    rewrite <- Nat.add_succ_r. apply Hup. lia.
  - destruct Hev2 as (_ & _ & _ & _ & Hdr2 & _).
    exists w2. split; [|cbn in Hdr2; lia].
    rewrite Hv2. unfold next_verdict. cbn. rewrite Henv, Hdr, Nat.add_1_r.
    reflexivity.
Qed.

(** ** The worker and the queue *)

(** Settling adds one log line and nothing else. *)
Lemma deliver_run (job : Job) (w : World) :
  exists w',
    deliver job w = (settle (fst (externalVerificationWorker job w)), w') /\
    evolves (snd (externalVerificationWorker job w)) w'
      (store (snd (externalVerificationWorker job w))) [] 0 [].
Proof.
  unfold deliver.
  destruct (externalVerificationWorker job w) as [[r|e] w1]; cbn; close_evolves.
Qed.

(** One delivery, end to end: the service returns some [r]; the sink is
    called once, with the text for [r]; the job completes with [r] when the
    sink returns and fails with the sink's exception when it throws. *)
Lemma deliver_outcome (job : Job) (w : World) :
  exists r w1 w',
    verifyMerchant (VStr (merchantId (data job))) (processing job w) = (Normal r, w1) /\
    deliver job w
    = (match next_sink_error w with
       | None => Completed r
       | Some e => Failed e
       end, w') /\
    evolves w1 w' (store w1) [] 0 [(merchantId (data job), notice (success r))] /\
    sent w1 = sent w.
Proof.
  destruct (verify_returns _ _ (ToString_VStr (merchantId (data job))) (processing job w))
    as (r & w1 & cmds & draws & st & Hv & _).
  destruct (worker_sink_fixed job w r w1 Hv) as (Hsink & Hsent).
  destruct (worker_run job w r w1 Hv) as (w2 & Hrun & Hev).
  destruct (deliver_run job w) as (w' & Hd & Hev').
  rewrite Hrun in Hd, Hev'. cbn [fst snd] in Hd, Hev'.
  exists r, w1, w'. repeat split; try tauto.
  - rewrite Hd, Hsink. by destruct (next_sink_error w).
  - destruct Hev as (? & _), Hev' as (? & _). congruence.
  - destruct Hev as (_ & ? & _), Hev' as (_ & ? & _). congruence.
  - destruct Hev as (_ & _ & ? & _), Hev' as (_ & _ & ? & _). congruence.
  - destruct Hev as (_ & _ & _ & H1 & _), Hev' as (_ & _ & _ & H2 & _).
    rewrite H2, H1. by rewrite !app_nil_r.
  - destruct Hev as (_ & _ & _ & _ & H1 & _), Hev' as (_ & _ & _ & _ & H2 & _). lia.
  - destruct Hev as (_ & _ & _ & _ & _ & H1), Hev' as (_ & _ & _ & _ & _ & H2).
    rewrite H2, H1. by rewrite app_nil_r.
Qed.

(** C4, as stated, fails: with Redis down, nothing propagates to the queue.
    The service answers from its [catch] block, the worker notifies a
    failed verification, and the job completes. *)
Lemma outage_job_completes :
  cache_access_throws "M-001" (boot outage) ECONNREFUSED /\
  fst (deliver job_M001 (boot outage))
  = Completed (mkResult false (Some "Internal error during verification")) /\
  sent (snd (deliver job_M001 (boot outage))) = [("M-001", "Verification failed!")] /\
  ~ exists e, fst (deliver job_M001 (boot outage)) = Failed e.
Proof.
  split; [left; reflexivity|].
  split; [reflexivity|]. split; [reflexivity|].
  intros [e He]. discriminate He.
Qed.

(** C4, amended — A throwing cache access does not fail the job.  When the
    cache access of the service throws and the sink returns, the job
    completes with [{ success: false, message: 'Internal error during
    verification' }], the one notification sent is 'Verification failed!',
    and the keyspace is what it was. *)
Theorem cache_error_completes_job (job : Job) (w : World) (e : exn) :
  cache_access_throws (merchantId (data job)) w e ->
  next_sink_error w = None ->
  exists w',
    deliver job w
    = (Completed (mkResult false (Some "Internal error during verification")), w') /\
    sent w' = (sent w ++ [(merchantId (data job), "Verification failed!")])%list /\
    store w' = store w.
Proof.
  intros Hthrow Hsink.
  destruct (deliver_outcome job w) as (r & w1 & w' & Hv & Hd & Hev & Hsent).
  assert (exists w1', verifyMerchant (VStr (merchantId (data job))) (processing job w)
                       = (Normal internal_error, w1') /\ store w1' = store w)
    as (w1' & Hv' & Hst).
  { destruct Hthrow as [He | (He & Hmiss & Hset)].
    - destruct (verify_get_rejected _ _ (ToString_VStr (merchantId (data job)))
                  (processing job w) e He) as (w1' & ? & _ & _ & ? & _).
      eauto.
    - destruct (verify_miss_set_rejected _ _ (ToString_VStr (merchantId (data job)))
                  (processing job w) e He Hmiss Hset) as (w1' & ? & _ & _ & ? & _).
      eauto. }
  rewrite Hv in Hv'. injection Hv' as -> ->.
  rewrite Hsink in Hd. exists w'. split; [exact Hd|].
  destruct Hev as (_ & _ & Hst' & _ & _ & Hsent').
  split; [by rewrite Hsent', Hsent | by rewrite Hst', Hst].
Qed.

Lemma cache_error_completes_job_witness :
  exists w',
    deliver job_M001 (boot flaky)
    = (Completed (mkResult false (Some "Internal error during verification")), w') /\
    sent w' = [("M-001", "Verification failed!")] /\
    store w' = ∅.
Proof.
  apply (cache_error_completes_job job_M001 (boot flaky) ECONNREFUSED).
  - right. repeat split; reflexivity.
  - reflexivity.
Defined.

(** C5, as stated, fails: the service returns a positive result, the sink
    throws, and the job fails with the sink's exception. *)
Lemma muted_sink_fails_job :
  fst (verifyMerchant (VStr "M-001") (processing job_M001 (boot muted)))
  = Normal (mkResult true (Some "Verified successfully")) /\
  next_sink_error (boot muted) = Some push_failed /\
  fst (deliver job_M001 (boot muted)) = Failed push_failed /\
  ~ exists r, fst (deliver job_M001 (boot muted)) = Completed r.
Proof.
  split; [reflexivity|]. split; [reflexivity|]. split; [reflexivity|].
  intros [r Hr]. discriminate Hr.
Qed.

(** C5, amended — The sink decides the job's fate.  The service returns a
    result for every job; the job completes with that result exactly when
    [sendNotification] returns, and when [sendNotification] throws the
    worker rethrows and the job fails with that exception. *)
Theorem sink_decides_job_status (job : Job) (w : World) :
  exists r,
    fst (verifyMerchant (VStr (merchantId (data job))) (processing job w)) = Normal r /\
    fst (deliver job w)
    = match next_sink_error w with
      | None => Completed r
      | Some e => Failed e
      end.
Proof.
  destruct (deliver_outcome job w) as (r & w1 & w' & Hv & Hd & _).
  exists r. by rewrite Hv, Hd.
Qed.

(** C6, as stated, fails: a job is notified once per delivery, not once.
    The first delivery of the job for [M-001] fails because the sink
    throws; the queue delivers it again, the second delivery completes, and
    by then [sendNotification] has been called twice for that job. *)
Lemma retried_job_notified_twice :
  let first := deliver job_M001 (boot hiccup) in
  let second := deliver job_M001 (elapse 5 (snd first)) in
  fst first = Failed push_failed /\
  fst second = Completed (mkResult true None) /\
  sent (snd second)
  = [("M-001", "Verification successful!"); ("M-001", "Verification successful!")].
Proof. vm_compute. repeat split; reflexivity. Qed.

(** C6, amended — One notification per completed delivery.  When a
    delivery of a job completes with result [r], exactly one call of
    [sendNotification] was made during that delivery: to the job's
    merchant, with 'Verification successful!' when [r.success] and
    'Verification failed!' otherwise. *)
Theorem completed_job_notifies_once
    (job : Job) (w : World) (r : VerificationResult) (w' : World) :
  deliver job w = (Completed r, w') ->
  sent w'
  = (sent w ++
     [(merchantId (data job),
       if success r then "Verification successful!" else "Verification failed!")])%list.
Proof.
  intros Hdone.
  destruct (deliver_outcome job w) as (r0 & w1 & w0 & _ & Hd & Hev & Hsent).
  rewrite Hdone in Hd. injection Hd as Hstate ->.
  destruct (next_sink_error w); [discriminate|]. injection Hstate as ->.
  destruct Hev as (_ & _ & _ & _ & _ & Hs). by rewrite Hs, Hsent.
Qed.

Lemma completed_job_notifies_once_witness :
  sent (snd (deliver job_M001 (boot calm))) = [("M-001", "Verification successful!")] /\
  sent (snd (deliver job_M001 (boot strict))) = [("M-001", "Verification failed!")].
Proof.
  split.
  - apply (completed_job_notifies_once job_M001 (boot calm) (fresh_result true)).
    reflexivity.
  - apply (completed_job_notifies_once job_M001 (boot strict) (fresh_result false)).
    reflexivity.
Defined.

(** ** The routes and the key they consult *)

(** A call on an argument that renders as [s] starts with a lookup of
    [merchant_verification:s] and sends no command on any other key. *)
Lemma verify_commands (v : value) (s : string) (w : World) :
  ToString v = Some s ->
  exists r w' rest,
    verifyMerchant v w = (Normal r, w') /\
    issued w' = (issued w ++ GET (cache_key s) :: rest)%list /\
    Forall (fun c => command_key c = cache_key s) rest.
Proof.
  intros Hs.
  destruct (next_redis_error w) as [e|] eqn:He.
  { destruct (verify_get_rejected v s Hs w e He) as (w' & ? & _ & _ & _ & ? & _).
    exists internal_error, w', []. split; [eassumption | split; [eassumption | repeat constructor]]. }
  destruct (truthy (live w (cache_key s))) eqn:Ht.
  { destruct (verify_hit v s Hs w He Ht) as (w' & ? & _ & _ & _ & ? & _).
    eexists _, w', []. split; [eassumption | split; [eassumption | repeat constructor]]. }
  destruct (redis_error (env w) (S (length (issued w)))) as [e|] eqn:Hset.
  { destruct (verify_miss_set_rejected v s Hs w e He Ht Hset)
      as (w' & ? & _ & _ & _ & ? & _).
    eexists _, w', [_]. split; [eassumption | split; [eassumption | repeat constructor]]. }
  destruct (verify_miss_stored v s Hs w He Ht Hset) as (w' & ? & _ & _ & _ & ? & _).
  eexists _, w', [_]. split; [eassumption | split; [eassumption | repeat constructor]].
Qed.

(** An argument that does not render makes the call throw: the template
    literal of the first log line throws inside [try], and the template
    literal of the [catch] block throws again. *)
Lemma verify_unrenderable (v : value) (w : World) :
  ToString v = None ->
  verifyMerchant v w
  = (Throw (TypeError "Cannot convert object to primitive value"), w).
Proof.
  intros Hn.
  unfold verifyMerchant, try_catch, verifyMerchant_try, verifyMerchant_catch,
    bind, template.
  assert (H1 : forall a rest, render (Lit a :: Sub v :: rest) = None).
  { intros a rest. unfold render; fold render. by rewrite Hn. }
  by rewrite !H1.
Qed.

(** A parsed JSON object without an own [toString] key renders as the tag
    [[object Object]], whatever its fields hold. *)
Lemma ToString_plain_object (props : list (string * value)) :
  has_own "toString" props = false -> ToString (VObj props) = Some "[object Object]".
Proof. intros H. cbn. by rewrite H. Qed.

(** C8 — at the test client's payload, both routes consult the key of the
    object tag, not the key of the merchant: the first command is
    [GET merchant_verification:[object Object]], every later command is on
    that key too, and the response of [/merchant/submit] reports a
    verification. *)
Theorem routes_consult_object_key (w : World) :
  (exists r rest,
     fst (post_submit (mkRequest client_payload) w) = Normal (submit_ok r) /\
     issued (snd (post_submit (mkRequest client_payload) w))
     = (issued w ++ GET "merchant_verification:[object Object]" :: rest)%list /\
     Forall (fun c => command_key c = "merchant_verification:[object Object]") rest) /\
  (exists rest,
     fst (post_external_verification (mkRequest client_payload) w)
     = Normal (mkResponse 200 (send "OK")) /\
     issued (snd (post_external_verification (mkRequest client_payload) w))
     = (issued w ++ GET "merchant_verification:[object Object]" :: rest)%list /\
     Forall (fun c => command_key c = "merchant_verification:[object Object]") rest) /\
  "merchant_verification:[object Object]" <> cache_key "M12345".
Proof.
  destruct (verify_commands client_payload "[object Object]" w eq_refl)
    as (r & w' & rest & Hv & Hiss & Hall).
  split; [|split; [|discriminate]].
  - exists r, rest. unfold post_submit, try_catch, bind. cbn [body]. rewrite Hv.
    cbn. auto.
  - exists rest. unfold post_external_verification, try_catch, bind. cbn [body].
    rewrite Hv. cbn. auto.
Qed.

(** Two merchants, one entry: a submission for one merchant caches its
    verdict under the object tag, and a submission for another merchant
    within the hour is answered from that entry without any check. *)
Example merchants_share_one_entry :
  let first :=
    post_submit (mkRequest (VObj [("merchantId", VStr "M-001")])) (boot calm) in
  let second :=
    post_submit (mkRequest (VObj [("merchantId", VStr "M-002")])) (elapse 5 (snd first)) in
  dom (store (snd first)) = {["merchant_verification:[object Object]"]} /\
  fst second = Normal (submit_ok (mkResult true None)) /\
  drawn (snd second) = 1%nat.
Proof. vm_compute. repeat split; reflexivity. Qed.

(** C9 — The two responses of [POST /merchant/submit].  When the call of
    the service returns a result, the response is 200 with body
    [{ success: true, data: result }], where [data] holds the result's own
    [success] and, when the result has one, its [message]; when the call
    throws, the response is 500 with the fixed body
    [{ success: false, message: 'Server Error' }], in which nothing of the
    exception appears. *)
Theorem submit_response (req : Request) (w : World) :
  match fst (verifyMerchant (body req) w) with
  | Normal (mkResult ok (Some text)) =>
      fst (post_submit req w)
      = Normal (mkResponse 200
                  (json (VObj [("success", VBool true);
                               ("data", VObj [("success", VBool ok);
                                              ("message", VStr text)])])))
  | Normal (mkResult ok None) =>
      fst (post_submit req w)
      = Normal (mkResponse 200
                  (json (VObj [("success", VBool true);
                               ("data", VObj [("success", VBool ok)])])))
  | Throw err =>
      fst (post_submit req w)
      = Normal (mkResponse 500
                  (json (VObj [("success", VBool false); ("message", VStr "Server Error")])))
  end.
Proof.
  rewrite post_submit_run.
  destruct (fst (verifyMerchant (body req) w)) as [[ok [text|]]|err]; reflexivity.
Qed.

(** Both responses occur. *)
Example submit_answers_200 :
  fst (post_submit (mkRequest client_payload) (boot calm))
  = Normal (mkResponse 200
              (json (VObj [("success", VBool true);
                           ("data", VObj [("success", VBool true);
                                          ("message", VStr "Verified successfully")])]))).
Proof. reflexivity. Qed.

Example submit_answers_500 :
  fst (post_submit (mkRequest (VObj [("toString", VNum "1")])) (boot calm))
  = Normal (mkResponse 500
              (json (VObj [("success", VBool false); ("message", VStr "Server Error")]))).
Proof. reflexivity. Qed.

(** C10 — at the JSON body [{"toString": 1}] the service is not total.
    The routes hand it [req.body]; the template literal of the first log
    line throws a [TypeError] inside [try], the log line of the [catch]
    block interpolates the argument again and throws too, so
    [verifyMerchant] throws and both routes take their error branch:
    [/webhook/external-verification] answers 500, and so does
    [/merchant/submit]. *)
Lemma webhook_answers_500 :
  fst (verifyMerchant (VObj [("toString", VNum "1")]) (boot calm))
  = Throw (TypeError "Cannot convert object to primitive value") /\
  fst (post_external_verification (mkRequest (VObj [("toString", VNum "1")])) (boot calm))
  = Normal (mkResponse 500 (send "Webhook processing failed")) /\
  fst (post_submit (mkRequest (VObj [("toString", VNum "1")])) (boot calm))
  = Normal (mkResponse 500
              (json (VObj [("success", VBool false); ("message", VStr "Server Error")]))).
Proof. repeat split; reflexivity. Qed.

(** ** The specification's end-to-end scenarios *)

(** Job for [M-001], external check positive: the cache holds
    [merchant_verification:M-001 = "true"], the sink received
    [("M-001", "Verification successful!")], the job is completed. *)
Example scenario_fresh_success :
  let run := deliver job_M001 (boot calm) in
  fst run = Completed (mkResult true (Some "Verified successfully")) /\
  live (snd run) "merchant_verification:M-001" = Some "true" /\
  sent (snd run) = [("M-001", "Verification successful!")].
Proof. vm_compute. repeat split; reflexivity. Qed.

(** Cache pre-seeded with [merchant_verification:M-002 = "false"]: the
    external computation is never invoked, the sink receives the failure
    text, the job is completed. *)
Example scenario_cache_hit :
  let seeded :=
    with_store {["merchant_verification:M-002" := mkEntry "false" None]} (boot calm) in
  let run := deliver (mkJob (mkJobData "M-002")) seeded in
  fst run = Completed (mkResult false None) /\
  drawn (snd run) = 0%nat /\
  issued (snd run) = [GET "merchant_verification:M-002"] /\
  sent (snd run) = [("M-002", "Verification failed!")].
Proof. vm_compute. repeat split; reflexivity. Qed.

(** * Further properties of the pipeline *)

(** ** Every call follows one of four paths *)

Lemma verify_follows_path (v : value) (s : string) (w : World) :
  ToString v = Some s ->
  exists r w', verifyMerchant v w = (Normal r, w') /\ verify_path s w r w'.
Proof.
  intros Hs.
  destruct (next_redis_error w) as [e|] eqn:He.
  { destruct (verify_get_rejected v s Hs w e He) as (w' & ? & ?).
    eauto using path_get_rejected. }
  destruct (truthy (live w (cache_key s))) eqn:Ht.
  { destruct (verify_hit v s Hs w He Ht) as (w' & ? & ?).
    eauto using path_hit. }
  destruct (redis_error (env w) (S (length (issued w)))) as [e|] eqn:Hset.
  { destruct (verify_miss_set_rejected v s Hs w e He Ht Hset) as (w' & ? & ?).
    eauto using path_set_rejected. }
  destruct (verify_miss_stored v s Hs w He Ht Hset) as (w' & ? & ?).
  eauto using path_stored.
Qed.

(** What a call returned and left behind, read back as a path. *)
Lemma verify_path_of_run (v : value) (s : string) (w : World)
    (r : VerificationResult) (w' : World) :
  ToString v = Some s ->
  verifyMerchant v w = (Normal r, w') ->
  verify_path s w r w'.
Proof.
  intros Hs Hv. destruct (verify_follows_path v s w Hs) as (r0 & w0 & Hv0 & Hp).
  rewrite Hv in Hv0. by injection Hv0 as -> ->.
Qed.

Lemma path_frame (s : string) (w : World) (r : VerificationResult) (w' : World) :
  verify_path s w r w' ->
  env w' = env w /\ clock w' = clock w /\ sent w' = sent w.
Proof.
  intros Hp. destruct Hp as [e w' _ Hev | w' _ _ Hev | e w' _ _ _ Hev | w' _ _ _ Hev];
    destruct Hev as (? & ? & _ & _ & _ & Hsent);
    rewrite app_nil_r in Hsent; auto.
Qed.

Lemma path_other_keys (s : string) (w : World) (r : VerificationResult) (w' : World)
    (key : string) :
  verify_path s w r w' -> key <> cache_key s -> store w' !! key = store w !! key.
Proof.
  intros Hp Hne.
  destruct Hp as [e w' _ Hev | w' _ _ Hev | e w' _ _ _ Hev | w' _ _ _ Hev];
    destruct Hev as (_ & _ & Hst & _); rewrite Hst; try reflexivity.
  by rewrite lookup_insert_ne.
Qed.

Lemma path_cost (s : string) (w : World) (r : VerificationResult) (w' : World) :
  verify_path s w r w' ->
  (length (issued w) < length (issued w') <= length (issued w) + 2)%nat /\
  (drawn w <= drawn w' <= drawn w + 1)%nat.
Proof.
  intros Hp.
  destruct Hp as [e w' _ Hev | w' _ _ Hev | e w' _ _ _ Hev | w' _ _ _ Hev];
    destruct Hev as (_ & _ & _ & Hiss & Hdr & _);
    rewrite Hiss, Hdr, length_app; cbn; lia.
Qed.

(** In the keyspace a path leaves, when its commands were all answered, a
    string readable under the key decides the outcome the path returned. *)
Lemma path_agrees (s : string) (w : World) (r : VerificationResult) (w' : World)
    (t : Z) (a : string) :
  verify_path s w r w' ->
  cache_answered w w' ->
  read_at (store w') t (cache_key s) = Some a ->
  truthy (Some a) = true /\ is_true_string (Some a) = success r.
Proof.
  intros Hp Hans Ha.
  destruct Hp as [e w' He Hev | w' _ Ht Hev | e w' _ _ Hset Hev | w' _ _ _ Hev];
    destruct Hev as (_ & _ & Hst & Hiss & _).
  - unfold next_redis_error in He.
    rewrite (Hans (length (issued w))) in He; [discriminate|].
    rewrite Hiss, length_app. cbn. lia.
  - destruct (live w (cache_key s)) as [b|] eqn:Hb; [|discriminate].
    unfold live in Hb. rewrite Hst in Ha.
    rewrite (read_at_stable _ _ _ _ _ _ Ha Hb). auto.
  - rewrite (Hans (S (length (issued w)))) in Hset; [discriminate|].
    rewrite Hiss, length_app. cbn. lia.
  - rewrite Hst in Ha. apply read_at_insert in Ha. subst a.
    split; [apply truthy_String_of_bool | apply is_true_String_of_bool].
Qed.

(** ** More on the cache behaviour of [verifyMerchant] *)

(** X1 — On a hit, only the exact string ["true"] is a success: whatever else
    is cached under the key (["TRUE"], ["1"], ["false"], ...) is returned as
    a failure, without message, without a draw and without a write. *)
Theorem hit_succeeds_only_on_true (v : value) (s : string) (w : World) (c : string) :
  ToString v = Some s ->
  next_redis_error w = None ->
  live w (cache_key s) = Some c ->
  c <> "" ->
  exists r w',
    verifyMerchant v w = (Normal r, w') /\
    (success r = true <-> c = "true") /\
    message r = None /\
    store w' = store w /\ drawn w' = drawn w.
Proof.
  intros Hs He Hc Hne.
  assert (Ht : truthy (live w (cache_key s)) = true).
  { rewrite Hc. destruct c; [congruence | reflexivity]. }
  destruct (verify_hit v s Hs w He Ht) as (w' & Hv & _ & _ & Hst & _ & Hdr & _).
  eexists _, w'. split; [exact Hv|]. rewrite Hc. cbn.
  repeat split; auto; try lia.
  - intros H. by apply String.eqb_eq.
  - intros ->. reflexivity.
Qed.

Lemma hit_succeeds_only_on_true_witness :
  exists r w',
    verifyMerchant (VStr "M-7")
      (with_store {[cache_key "M-7" := mkEntry "TRUE" None]} (boot calm))
    = (Normal r, w') /\
    (success r = true <-> "TRUE" = "true") /\
    message r = None /\
    store w' = {[cache_key "M-7" := mkEntry "TRUE" None]} /\ drawn w' = 0%nat.
Proof.
  refine (hit_succeeds_only_on_true (VStr "M-7") "M-7"
            (with_store {[cache_key "M-7" := mkEntry "TRUE" None]} (boot calm)) "TRUE"
            _ _ _ _).
  - reflexivity.
  - reflexivity.
  - vm_compute. reflexivity.
  - discriminate.
Defined.

(** X2 — A cached empty string does not count as an entry: the call computes a
    verdict as on a miss and overwrites the empty string with it. *)
Theorem empty_entry_is_recomputed (v : value) (s : string) (w : World) :
  ToString v = Some s ->
  live w (cache_key s) = Some "" ->
  next_redis_error w = None ->
  redis_error (env w) (S (length (issued w))) = None ->
  exists w',
    verifyMerchant v w = (Normal (fresh_result (next_verdict w)), w') /\
    drawn w' = S (drawn w) /\
    store w' !! cache_key s
    = Some (mkEntry (String_of_bool (next_verdict w)) (Some (clock w + 3600))).
Proof.
  intros Hs Hc He Hset.
  assert (Ht : truthy (live w (cache_key s)) = false) by (by rewrite Hc).
  destruct (verify_miss_stored v s Hs w He Ht Hset) as (w' & Hv & _ & _ & Hst & _ & Hdr & _).
  exists w'. repeat split; [exact Hv | lia |].
  rewrite Hst. apply lookup_insert_eq.
Qed.

Lemma empty_entry_is_recomputed_witness :
  exists w',
    verifyMerchant (VStr "M-7")
      (with_store {[cache_key "M-7" := mkEntry "" None]} (boot strict))
    = (Normal (fresh_result false), w') /\
    drawn w' = 1%nat /\
    store w' !! cache_key "M-7" = Some (mkEntry "false" (Some 3600)).
Proof.
  apply (empty_entry_is_recomputed (VStr "M-7") "M-7"
           (with_store {[cache_key "M-7" := mkEntry "" None]} (boot strict)));
    reflexivity.
Defined.

(** Distinct merchant identifiers have distinct keys. *)
Lemma cache_key_inj (m m' : string) : cache_key m = cache_key m' -> m = m'.
Proof. unfold cache_key. apply (inj (String.append _)). Qed.

(** X3 — A call for one merchant never touches another merchant's entry: under
    the key of any other identifier the keyspace holds, and reads, what it
    did before. *)
Theorem other_merchants_untouched (m m' : string) (w : World) :
  m <> m' ->
  store (snd (verifyMerchant (VStr m) w)) !! cache_key m' = store w !! cache_key m' /\
  live (snd (verifyMerchant (VStr m) w)) (cache_key m') = live w (cache_key m').
Proof.
  intros Hne.
  destruct (verify_follows_path (VStr m) m w eq_refl) as (r & w' & Hv & Hp).
  rewrite Hv. cbn [snd].
  assert (Hk : cache_key m' <> cache_key m)
    by (intros H; apply Hne; symmetry; by apply cache_key_inj).
  pose proof (path_other_keys _ _ _ _ _ Hp Hk) as Hst.
  destruct (path_frame _ _ _ _ Hp) as (_ & Hclk & _).
  split; [exact Hst|]. unfold live, read_at. by rewrite Hst, Hclk.
Qed.

Lemma other_merchants_untouched_witness :
  store (snd (verifyMerchant (VStr "M-002") after_first_call)) !! cache_key "M-001"
  = store after_first_call !! cache_key "M-001" /\
  live (snd (verifyMerchant (VStr "M-002") after_first_call)) (cache_key "M-001")
  = live after_first_call (cache_key "M-001").
Proof.
  apply (other_merchants_untouched "M-002" "M-001" after_first_call). discriminate.
Defined.

(** No path of the service calls the notification service. *)
Lemma verify_keeps_sent (v : value) (w : World) :
  sent (snd (verifyMerchant v w)) = sent w.
Proof.
  destruct (ToString v) as [s|] eqn:Hs.
  - destruct (verify_follows_path v s w Hs) as (r & w' & Hv & Hp).
    rewrite Hv. cbn [snd]. by destruct (path_frame _ _ _ _ Hp) as (_ & _ & ?).
  - by rewrite (verify_unrenderable v w Hs).
Qed.

(** X4 — The footprint of a call, for every argument and every environment: it
    never calls the notification service, never moves the clock, sends at
    most two Redis commands and draws at most one random number. *)
Theorem verify_footprint (v : value) (w : World) :
  let w' := snd (verifyMerchant v w) in
  sent w' = sent w /\ clock w' = clock w /\
  (length (issued w) <= length (issued w') <= length (issued w) + 2)%nat /\
  (drawn w <= drawn w' <= drawn w + 1)%nat.
Proof.
  cbn zeta. destruct (ToString v) as [s|] eqn:Hs.
  - destruct (verify_follows_path v s w Hs) as (r & w' & Hv & Hp).
    rewrite Hv. cbn [snd].
    destruct (path_frame _ _ _ _ Hp) as (_ & ? & ?).
    destruct (path_cost _ _ _ _ Hp) as (? & ?).
    repeat split; auto; lia.
  - rewrite (verify_unrenderable v w Hs). cbn [snd]. repeat split; lia.
Qed.

(** X5 — When a call throws.  An argument that [ToString] converts always gets
    a result; any other argument makes the call throw a [TypeError] before
    anything is logged, looked up, drawn or written. *)
Theorem verify_throws_exactly_on_unrenderable (v : value) (w : World) :
  match ToString v with
  | Some _ => exists r, fst (verifyMerchant v w) = Normal r
  | None =>
      verifyMerchant v w
      = (Throw (TypeError "Cannot convert object to primitive value"), w)
  end.
Proof.
  destruct (ToString v) as [s|] eqn:Hs.
  - destruct (verify_follows_path v s w Hs) as (r & w' & Hv & _).
    exists r. by rewrite Hv.
  - by apply verify_unrenderable.
Qed.

(** X8 — A hit does not extend an entry's lifetime.  A call that finds a live,
    non-empty entry leaves it under its original deadline; once that
    deadline is reached the entry reads as absent, and the next call (with
    its commands answered) computes afresh, however recently the entry was
    last served. *)
Theorem hit_does_not_extend_lifetime
    (m : string) (w : World) (e : Entry) (t : Z) (d : N) :
  store w !! cache_key m = Some e ->
  deadline e = Some t ->
  clock w < t <= clock w + Z.of_N d ->
  payload e <> "" ->
  (forall i, (i < 3)%nat -> redis_error (env w) (length (issued w) + i) = None) ->
  let w1 := snd (verifyMerchant (VStr m) w) in
  let w2 := snd (verifyMerchant (VStr m) (elapse d w1)) in
  store w1 !! cache_key m = Some e /\
  drawn w1 = drawn w /\
  drawn w2 = S (drawn w).
Proof.
  intros Hk Hd [Hlive Hdead] Hne Hup. cbn zeta.
  assert (He : next_redis_error w = None).
  { unfold next_redis_error. rewrite <- (Nat.add_0_r (length (issued w))).
    apply Hup. lia. }
  assert (Hl : live w (cache_key m) = Some (payload e)).
  { unfold live, read_at. rewrite Hk, Hd.
    destruct (clock w <? t)%Z eqn:Hlt; [reflexivity|]. apply Z.ltb_ge in Hlt. lia. }
  assert (Ht : truthy (live w (cache_key m)) = true).
  { rewrite Hl. destruct (payload e); [congruence | reflexivity]. }
  destruct (verify_hit _ _ (ToString_VStr m) w He Ht)
    as (w1 & Hv & Henv & Hclk & Hst & Hiss & Hdr & _).
  rewrite Hv. cbn [snd]. rewrite Hst.
  split; [exact Hk|]. split; [lia|].
  assert (Hgone : truthy (live (elapse d w1) (cache_key m)) = false).
  { rewrite (expired_entry_absent (elapse d w1) (cache_key m) e t);
      [reflexivity | cbn; by rewrite Hst | exact Hd | cbn; lia]. }
  destruct (verify_miss_stored _ _ (ToString_VStr m) (elapse d w1))
    as (w2 & Hv2 & _ & _ & _ & _ & Hdr2 & _).
  - unfold next_redis_error. cbn. rewrite Henv, Hiss, length_app. cbn.
    apply Hup. lia.
  - exact Hgone.
  - cbn. rewrite Henv, Hiss, length_app. cbn.
    rewrite <- Nat.add_succ_r. apply Hup. lia.
  - rewrite Hv2. cbn [snd]. cbn in Hdr2. lia.
Qed.

Lemma hit_does_not_extend_lifetime_witness :
  let w := elapse 3000 after_first_call in
  let w1 := snd (verifyMerchant (VStr "M-001") w) in
  let w2 := snd (verifyMerchant (VStr "M-001") (elapse 600 w1)) in
  store w1 !! cache_key "M-001" = Some (mkEntry "true" (Some 3600)) /\
  drawn w1 = drawn w /\
  drawn w2 = S (drawn w).
Proof.
  refine (hit_does_not_extend_lifetime "M-001" (elapse 3000 after_first_call)
            (mkEntry "true" (Some 3600)) 3600 600 _ _ _ _ _).
  - vm_compute. reflexivity.
  - reflexivity.
  - vm_compute. split; [reflexivity | discriminate].
  - discriminate.
  - intros i _. reflexivity.
Defined.

(** ** More on the routes *)

(** A route handler adds to the world only what its call of the service
    adds, and one console line when that call throws. *)
Lemma post_submit_world (req : Request) (w : World) :
  let w1 := snd (verifyMerchant (body req) w) in
  let w' := snd (post_submit req w) in
  sent w' = sent w1 /\ store w' = store w1 /\ issued w' = issued w1 /\
  drawn w' = drawn w1.
Proof.
  cbn zeta. unfold post_submit, try_catch, bind.
  destruct (verifyMerchant (body req) w) as [[r|e] w1]; cbn; auto.
Qed.

Lemma post_external_verification_world (req : Request) (w : World) :
  let w1 := snd (verifyMerchant (body req) w) in
  let w' := snd (post_external_verification req w) in
  sent w' = sent w1 /\ store w' = store w1 /\ issued w' = issued w1 /\
  drawn w' = drawn w1.
Proof.
  cbn zeta. unfold post_external_verification, try_catch, bind.
  destruct (verifyMerchant (body req) w) as [[r|e] w1]; cbn; auto.
Qed.

(** X9 — Both handlers always respond, and the status depends on the body
    alone: 200 when [ToString] converts it, 500 when it does not.  Neither
    the cache nor the verdict can change the status. *)
Theorem routes_status_by_body (req : Request) (w : World) :
  match ToString (body req) with
  | Some _ =>
      fst (post_external_verification req w) = Normal (mkResponse 200 (send "OK")) /\
      exists r, fst (post_submit req w) = Normal (submit_ok r)
  | None =>
      fst (post_external_verification req w)
      = Normal (mkResponse 500 (send "Webhook processing failed")) /\
      fst (post_submit req w) = Normal submit_failed
  end.
Proof.
  rewrite post_external_verification_run, post_submit_run.
  destruct (ToString (body req)) as [s|] eqn:Hs.
  - destruct (verify_follows_path (body req) s w Hs) as (r & w' & Hv & _).
    rewrite Hv. cbn. eauto.
  - rewrite (verify_unrenderable (body req) w Hs). cbn. auto.
Qed.

(** X10 — With the cache unreachable, [/merchant/submit] still answers 200 with
    [success: true]; the failure is only inside [data], as
    [{ success: false, message: 'Internal error during verification' }]. *)
Theorem submit_during_outage (req : Request) (s : string) (w : World) (e : exn) :
  ToString (body req) = Some s ->
  cache_access_throws s w e ->
  fst (post_submit req w)
  = Normal (mkResponse 200
              (json (VObj [("success", VBool true);
                           ("data",
                            VObj [("success", VBool false);
                                  ("message", VStr "Internal error during verification")])]))).
Proof.
  intros Hs Hthrow. rewrite post_submit_run.
  assert (exists w', verifyMerchant (body req) w = (Normal internal_error, w'))
    as (w' & Hv).
  { destruct Hthrow as [He | (He & Hmiss & Hset)].
    - destruct (verify_get_rejected _ _ Hs w e He) as (w' & ? & _). eauto.
    - destruct (verify_miss_set_rejected _ _ Hs w e He Hmiss Hset) as (w' & ? & _).
      eauto. }
  by rewrite Hv.
Qed.

Lemma submit_during_outage_witness :
  fst (post_submit (mkRequest client_payload) (boot outage))
  = Normal (mkResponse 200
              (json (VObj [("success", VBool true);
                           ("data",
                            VObj [("success", VBool false);
                                  ("message", VStr "Internal error during verification")])]))).
Proof.
  apply (submit_during_outage (mkRequest client_payload) "[object Object]"
           (boot outage) ECONNREFUSED).
  - reflexivity.
  - left. reflexivity.
Defined.

(** X11 — The routes verify but never notify: whatever the request and the
    environment, neither handler calls [sendNotification]. *)
Theorem routes_never_notify (req : Request) (w : World) :
  sent (snd (post_submit req w)) = sent w /\
  sent (snd (post_external_verification req w)) = sent w.
Proof.
  destruct (post_submit_world req w) as (H1 & _).
  destruct (post_external_verification_world req w) as (H2 & _).
  pose proof (verify_keeps_sent (body req) w) as Hs.
  cbn zeta in *. split; congruence.
Qed.

(** A one-element array renders as its element. *)
Lemma ToString_singleton (m : string) : ToString (VArr [VStr m]) = Some m.
Proof.
  cbn. change ("" +:+ m +:+ "") with (m +:+ ""). by rewrite append_empty_r.
Qed.

(** X12 — A body that is a JSON array holding one string reaches that string's
    key: for the body [["M12345"]] both routes look up
    [merchant_verification:M12345], the key the same identifier has in the
    worker. *)
Theorem array_body_reaches_merchant_key (m : string) (w : World) :
  (exists rest,
     issued (snd (post_submit (mkRequest (VArr [VStr m])) w))
     = (issued w ++ GET ("merchant_verification:" +:+ m) :: rest)%list) /\
  (exists rest,
     issued (snd (post_external_verification (mkRequest (VArr [VStr m])) w))
     = (issued w ++ GET ("merchant_verification:" +:+ m) :: rest)%list).
Proof.
  destruct (verify_commands (VArr [VStr m]) m w (ToString_singleton m))
    as (r & w' & rest & Hv & Hiss & _).
  destruct (post_submit_world (mkRequest (VArr [VStr m])) w) as (_ & _ & H1 & _).
  destruct (post_external_verification_world (mkRequest (VArr [VStr m])) w)
    as (_ & _ & H2 & _).
  cbn zeta in *. cbn [body] in *. rewrite Hv in H1, H2. cbn [snd] in *.
  split; exists rest; [rewrite H1 | rewrite H2]; exact Hiss.
Qed.

(** ** More on the worker *)

(** X13 — Every delivery calls the notification service exactly once, for the
    job's merchant and with one of the two texts, whether the job then
    completes or fails. *)
Theorem every_delivery_notifies_once (job : Job) (w : World) :
  exists ok : bool,
    sent (snd (deliver job w))
    = (sent w ++
       [(merchantId (data job),
         if ok then "Verification successful!" else "Verification failed!")])%list.
Proof.
  destruct (deliver_outcome job w) as (r & w1 & w' & _ & Hd & Hev & Hsent).
  exists (success r). rewrite Hd. cbn [snd].
  destruct Hev as (_ & _ & _ & _ & _ & Hs). by rewrite Hs, Hsent.
Qed.

(** X14 — Redelivery is safe to repeat.  Let a delivery (completed or failed)
    have had its Redis commands answered.  If the job is delivered again
    while the entry is unexpired and the lookup is answered, the second
    delivery draws no random number and sends the same notification text
    as the first. *)
Theorem redelivery_repeats_notice
    (job : Job) (w : World) (st1 : JobState) (w1 : World) (d : N) :
  deliver job w = (st1, w1) ->
  cache_answered w w1 ->
  is_Some (live (elapse d w1) (cache_key (merchantId (data job)))) ->
  next_redis_error (elapse d w1) = None ->
  exists text,
    sent w1 = (sent w ++ [(merchantId (data job), text)])%list /\
    sent (snd (deliver job (elapse d w1)))
    = (sent w1 ++ [(merchantId (data job), text)])%list /\
    drawn (snd (deliver job (elapse d w1))) = drawn w1.
Proof.
  intros Hfirst Hans [a Ha] Hget.
  set (m := merchantId (data job)) in *.
  destruct (deliver_outcome job w) as (r & wv & w1' & Hv & Hd & Hev & Hsent).
  rewrite Hfirst in Hd. injection Hd as _ <-.
  destruct Hev as (Henv & Hclk & Hst & Hiss & Hdr & Hs).
  rewrite app_nil_r in Hiss.
  pose proof (verify_path_of_run _ _ _ _ _ (ToString_VStr m) Hv) as Hp.
  assert (Hans' : cache_answered (processing job w) wv).
  { intros i Hi. apply Hans. cbn in Hi. rewrite Hiss. exact Hi. }
  unfold live in Ha. cbn in Ha. rewrite Hst in Ha.
  destruct (path_agrees m _ _ _ _ _ Hp Hans' Ha) as (Ht & Hok).
  destruct (deliver_outcome job (elapse d w1))
    as (r2 & wv2 & w2 & Hv2 & Hd2 & Hev2 & Hsent2).
  assert (Hl : live (processing job (elapse d w1)) (cache_key m) = Some a).
  { unfold live. cbn. by rewrite Hst. }
  destruct (verify_hit _ _ (ToString_VStr m) (processing job (elapse d w1)))
    as (wv2' & Hv2' & Hev2').
  - exact Hget.
  - by rewrite Hl.
  - fold m in Hv2. rewrite Hv2 in Hv2'. injection Hv2' as -> <-.
    rewrite Hl, Hok in Hev2. cbn [success] in Hev2.
    destruct Hev2 as (_ & _ & _ & _ & Hdr2 & Hs2).
    destruct Hev2' as (_ & _ & _ & _ & Hdr2' & _).
    exists (notice (success r)). rewrite Hd2. cbn [snd].
    split; [by rewrite Hs, Hsent|].
    split; [by rewrite Hs2, Hsent2 | cbn in Hdr2'; lia].
Qed.

Lemma redelivery_repeats_notice_witness :
  let w1 := snd (deliver job_M001 (boot muted)) in
  exists text,
    sent w1 = [("M-001", text)] /\
    sent (snd (deliver job_M001 (elapse 30 w1))) = (sent w1 ++ [("M-001", text)])%list /\
    drawn (snd (deliver job_M001 (elapse 30 w1))) = drawn w1.
Proof.
  refine (redelivery_repeats_notice job_M001 (boot muted) (Failed push_failed)
            (snd (deliver job_M001 (boot muted))) 30 _ _ _ _).
  - reflexivity.
  - intros i _. reflexivity.
  - eexists. vm_compute. reflexivity.
  - reflexivity.
Defined.

(** ** The API client against [/merchant/submit] *)

(** X15 — What a logged-in client makes of the route's responses.  On the 200
    response it returns the body, whatever verdict [data] holds; on the 500
    response it throws 'Failed to submit application': the client looks for
    [error.message], the route sends [message], so the route's own text is
    never shown. *)
Theorem client_reads_submit_route
    (req : Request) (w : World) (resp : Response) (token : string) :
  fst (post_submit req w) = Normal resp ->
  token <> "" ->
  exists payload,
    content resp = json payload /\
    submitMerchantApplication (Normal (Some token)) (Normal (reply_of resp payload))
    = if (status resp =? 200)%Z then Normal payload
      else Throw (Exn "Error" "Failed to submit application").
Proof.
  intros Hresp Htok. rewrite post_submit_run in Hresp.
  assert (Hauth : truthy (Some token) = true)
    by (destruct token; [congruence | reflexivity]).
  unfold submitMerchantApplication, getAuthHeader. rewrite Hauth.
  destruct (fst (verifyMerchant (body req) w)) as [r|e];
    injection Hresp as <-; eexists; (split; [reflexivity|]); reflexivity.
Qed.

Lemma client_reads_submit_route_witness :
  exists payload,
    content submit_failed = json payload /\
    submitMerchantApplication (Normal (Some "jwt")) (Normal (reply_of submit_failed payload))
    = Throw (Exn "Error" "Failed to submit application").
Proof.
  apply (client_reads_submit_route (mkRequest (VObj [("toString", VNum "1")]))
           (boot calm) submit_failed "jwt").
  - reflexivity.
  - discriminate.
Defined.

(** Without an access token the client throws 'Not authenticated. Please
    log in.' whatever the server would have answered; an empty token counts
    as none. *)
Lemma client_needs_token (session : option string) (fetched : Completion HttpReply) :
  session = None \/ session = Some "" ->
  submitMerchantApplication (Normal session) fetched
  = Throw (Exn "Error" "Not authenticated. Please log in.").
Proof. intros [-> | ->]; reflexivity. Qed.

(** ** What the logs keep of a failure *)

(** X16 — When the cache access throws, the call logs its start line, the
    verdict line if a verdict was computed, and the line 'Error verifying
    merchant ...:'.  The lines are the same for every exception: the cause
    is not recorded. *)
Theorem error_cause_is_not_logged (v : value) (s : string) (w : World) (e : exn) :
  ToString v = Some s ->
  cache_access_throws s w e ->
  log (snd (verifyMerchant v w))
  = (log w ++
     (Info, "Starting verification for merchant: " +:+ s) ::
     match next_redis_error w with
     | Some _ => []
     | None =>
         [(Info, "Verification result for " +:+ s +:+ ": " +:+
                 String_of_bool (next_verdict w))]
     end ++
     [(Error, "Error verifying merchant " +:+ s +:+ ":")])%list.
Proof.
  intros Hs [He | (He & Hmiss & Hset)]; rewrite He.
  - run_verify Hs. unfold next_redis_error in He. rewrite He. cbn.
    by rewrite <- app_assoc.
  - run_verify Hs. unfold next_redis_error in He. rewrite He.
    unfold live, cache_key in Hmiss. rewrite Hmiss.
    rewrite ?(render_verdict _ _ _ _ _ Hs), ?(render_lit_sub _ _ _ Hs). cbn.
    unfold redis_set, next_redis_error. cbn.
    rewrite length_app, Nat.add_1_r, Hset.
    rewrite ?(render_lit_sub_lit _ _ _ _ Hs). cbn.
    by rewrite <- !app_assoc.
Qed.

Lemma error_cause_is_not_logged_witness :
  log (snd (verifyMerchant (VStr "M-001") (boot flaky)))
  = [(Info, "Starting verification for merchant: M-001");
     (Info, "Verification result for M-001: true");
     (Error, "Error verifying merchant M-001:")].
Proof.
  refine (error_cause_is_not_logged (VStr "M-001") "M-001" (boot flaky) ECONNREFUSED _ _).
  - reflexivity.
  - right. repeat split; reflexivity.
Defined.

(** X17 — When the notification service throws, the delivery adds two error
    lines after the notification attempt: the worker's 'Error processing
    merchant ...:' and the listener's 'Job for merchant ... failed:'.
    Neither holds anything of the exception. *)
Theorem failed_delivery_log
    (job : Job) (w : World) (e : exn) (r : VerificationResult) (w1 : World) :
  verifyMerchant (VStr (merchantId (data job))) (processing job w) = (Normal r, w1) ->
  next_sink_error w1 = Some e ->
  log (snd (deliver job w))
  = (log w1 ++
     [(Error, "Error processing merchant " +:+ merchantId (data job) +:+ ":");
      (Error, "Job for merchant " +:+ merchantId (data job) +:+ " failed:")])%list.
Proof.
  intros Hv Hsink.
  unfold deliver, externalVerificationWorker, try_catch, bind, template.
  rewrite !(render_lit_sub _ _ _ (ToString_VStr _)),
    !(render_lit_sub_lit _ _ _ _ (ToString_VStr _)).
  cbn [ret logger_info write_log]. fold (processing job w). rewrite Hv.
  unfold sendNotification. destruct (success r); cbn; rewrite Hsink; cbn;
    by rewrite <- app_assoc.
Qed.

Lemma failed_delivery_log_witness :
  log (snd (deliver job_M001 (boot muted)))
  = [(Info, "Processing verification for merchant: M-001");
     (Info, "Starting verification for merchant: M-001");
     (Info, "Verification result for M-001: true");
     (Error, "Error processing merchant M-001:");
     (Error, "Job for merchant M-001 failed:")].
Proof.
  refine (failed_delivery_log job_M001 (boot muted) push_failed (fresh_result true)
            (snd (verifyMerchant (VStr "M-001") (processing job_M001 (boot muted)))) _ _).
  - reflexivity.
  - reflexivity.
Defined.
